(** * Verification of kindle2pdf.py: border scanning, page geometry,
    the capture loop, PDF assembly and the clean-up stage.

    Shallow embedding of [src/kindle2pdf.py].  Images are modelled as
    PIL images: a size and a [getpixel] function.  Python's [None] is
    [option]; exceptions are the [Raise] branch of [outcome]. *)

From Stdlib Require Import ZArith Lia String Ascii.
From stdpp Require Import base list gmap sets strings.

Open Scope Z_scope.

(* ------------------------------------------------------------------ *)
(** ** Data model *)

(** An RGB pixel value, as returned by [Image.getpixel] on RGB images. *)
Definition color := (Z * Z * Z)%type.

(** [@dataclass K2pConfig] *)
Record K2pConfig := {
  border_color : color;
  background_color : color
}.

(** The defaults of [K2pConfig]: border 0xE7E7E7, background 0xFFFFFF. *)
Definition default_config : K2pConfig :=
  {| border_color := (231, 231, 231); background_color := (255, 255, 255) |}.

(** A PIL image: [im.size = (width, height)] and [im.getpixel((x, y))]. *)
Record image := {
  im_width : Z;
  im_height : Z;
  getpixel : Z -> Z -> color
}.

(** Python exceptions raised by the program. *)
Inductive exc :=
| ValueError (msg : string)
| CalledProcessError
| FileNotFoundError (path : string).

(** A computation that returns a value or raises. *)
Inductive outcome (A : Type) :=
| Ok (a : A)
| Raise (e : exc).
Arguments Ok {A} a.
Arguments Raise {A} e.

Definition obind {A B} (m : outcome A) (f : A -> outcome B) : outcome B :=
  match m with Ok a => f a | Raise e => Raise e end.

Notation "'let*' x := m 'in' k" := (obind m (fun x => k))
  (at level 200, x name, m at level 100, k at level 200).

(** [range(a, b)] with step 1 (empty when [b <= a]). *)
Definition range_up (a b : Z) : list Z :=
  map (fun i => a + Z.of_nat i) (seq 0 (Z.to_nat (b - a))).

(** [range(a, b, -1)] (empty when [a <= b]). *)
Definition range_down (a b : Z) : list Z :=
  map (fun i => a - Z.of_nat i) (seq 0 (Z.to_nat (a - b))).

(** Python's [prev_pixel == c] where [prev_pixel] may be [None]. *)
Definition opt_color_eqb (p : option color) (c : color) : bool :=
  match p with Some q => bool_decide (q = c) | None => false end.

Definition bounds4 := (option Z * option Z * option Z * option Z)%type.

(* ------------------------------------------------------------------ *)
(** ** BorderScanner *)

Section Scanner.
Variable cfg : K2pConfig.
Variable im : image.

(** Loop of [_find_left_border]: state [(border_find, prev_pixel)]. *)
Fixpoint find_left_loop (sample_y : Z) (xs : list Z) (border_find : bool)
    (prev_pixel : option color) : option Z :=
  match xs with
  | [] => None
  | x :: xs' =>
      let pixel := getpixel im x sample_y in
      if negb border_find then
        find_left_loop sample_y xs'
          (bool_decide (pixel = border_color cfg)) (Some pixel)
      else if opt_color_eqb prev_pixel (background_color cfg)
              && negb (bool_decide (pixel = background_color cfg))
      then Some x
      else find_left_loop sample_y xs' border_find (Some pixel)
  end.

(** [_find_left_border(im, sample_y)] *)
Definition find_left_border (sample_y : Z) : option Z :=
  find_left_loop sample_y (range_up 0 (im_width im)) false None.

(** Loop of [_find_right_border]. *)
Fixpoint find_right_loop (sample_y : Z) (xs : list Z)
    (prev_pixel : option color) : option Z :=
  match xs with
  | [] => None
  | x :: xs' =>
      let pixel := getpixel im x sample_y in
      if opt_color_eqb prev_pixel (background_color cfg)
         && negb (bool_decide (pixel = background_color cfg))
      then Some x
      else find_right_loop sample_y xs' (Some pixel)
  end.

(** [_find_right_border(im, sample_y)]: [range(width-20, -1, -1)]. *)
Definition find_right_border (sample_y : Z) : option Z :=
  find_right_loop sample_y (range_down (im_width im - 20) (-1)) None.

(** [left = left_temp if left is None else min(left, left_temp)],
    guarded by [if left_temp is not None]. *)
Definition acc_min (acc t : option Z) : option Z :=
  match t with
  | None => acc
  | Some v => match acc with None => Some v | Some a => Some (Z.min a v) end
  end.

Definition acc_max (acc t : option Z) : option Z :=
  match t with
  | None => acc
  | Some v => match acc with None => Some v | Some a => Some (Z.max a v) end
  end.

(** [_detect_crop_border_x(im)]: sample rows [h//3] and [(h//3)*2]. *)
Definition detect_crop_border_x : option Z * option Z :=
  let y_block := im_height im / 3 in
  fold_left (fun '(lft, rgt) sample_y =>
               (acc_min lft (find_left_border sample_y),
                acc_max rgt (find_right_border sample_y)))
            [y_block; y_block * 2] (None, None).

(** Loop of [_find_top_border]. *)
Fixpoint find_top_loop (sample_x : Z) (ys : list Z) : option Z :=
  match ys with
  | [] => None
  | y :: ys' =>
      if bool_decide (getpixel im sample_x y = border_color cfg)
      then Some (y + 1)
      else find_top_loop sample_x ys'
  end.

(** [_find_top_border(im, sample_x)] *)
Definition find_top_border (sample_x : Z) : option Z :=
  find_top_loop sample_x (range_up 0 (im_height im)).

(** Loop of [_find_bottom_border]: state [border_find]. *)
Fixpoint find_bottom_loop (sample_x : Z) (ys : list Z) (border_find : bool)
    : option Z :=
  match ys with
  | [] => None
  | y :: ys' =>
      let pixel := getpixel im sample_x y in
      if negb border_find then
        find_bottom_loop sample_x ys' (bool_decide (pixel = border_color cfg))
      else if bool_decide (pixel = border_color cfg) then Some (y - 1)
      else find_bottom_loop sample_x ys' border_find
  end.

(** [_find_bottom_border(im, sample_x)]: [range(height-1, -1, -1)]. *)
Definition find_bottom_border (sample_x : Z) : option Z :=
  find_bottom_loop sample_x (range_down (im_height im - 1) (-1)) false.

(** [_detect_crop_border_y(im)]: sample columns [w//3] and [(w//3)*2]. *)
Definition detect_crop_border_y : option Z * option Z :=
  let x_block := im_width im / 3 in
  fold_left (fun '(top, bottom) x =>
               (acc_min top (find_top_border x),
                acc_max bottom (find_bottom_border x)))
            [x_block; x_block * 2] (None, None).

End Scanner.

(** BorderScanner on one image: [(left, top, right, bottom)], as read by
    [_calc_image_size] from [_detect_crop_border_x] and [_detect_crop_border_y]. *)
Definition border_scan (cfg : K2pConfig) (im : image) : bounds4 :=
  let '(left_temp, right_temp) := detect_crop_border_x cfg im in
  let '(top_temp, bottom_temp) := detect_crop_border_y cfg im in
  (left_temp, top_temp, right_temp, bottom_temp).

(** Two pixels the scanner cannot tell apart: each is the border colour
    iff the other is, and likewise for the background colour. *)
Definition same_class (cfg : K2pConfig) (p q : color) : Prop :=
  (p = border_color cfg <-> q = border_color cfg) /\
  (p = background_color cfg <-> q = background_color cfg).

(* ------------------------------------------------------------------ *)
(** ** PageGeometryResolver *)

(** The instance fields set by [_calc_image_size]. *)
Record geometry := {
  image_width : Z;
  image_height : Z;
  image_top : Z * Z;
  image_bottom : Z * Z
}.

(** One iteration of the loop of [_calc_image_size]. *)
Definition calc_step (cfg : K2pConfig) (acc : bounds4) (im : image) : bounds4 :=
  let '(lft, rgt, top, bottom) := acc in
  let '(left_temp, right_temp) := detect_crop_border_x cfg im in
  let '(top_temp, bottom_temp) := detect_crop_border_y cfg im in
  match left_temp, right_temp, top_temp, bottom_temp with
  | Some _, Some _, Some _, Some _ =>
      (acc_min lft left_temp, acc_max rgt right_temp,
       acc_min top top_temp, acc_max bottom bottom_temp)
  | _, _, _, _ => acc
  end.

Definition missing_offsets_msg : string :=
  "Could not calculate image size due to missing offsets.".

(** [_calc_image_size(page_number)], the pages being the images read
    from [page_0001.png] .. [page_N.png] in order. *)
Definition calc_image_size (cfg : K2pConfig) (pages : list image)
    : outcome geometry :=
  match fold_left (calc_step cfg) pages (None, None, None, None) with
  | (Some lft, Some rgt, Some top, Some bottom) =>
      Ok {| image_width := rgt - lft + 1;
            image_height := bottom - top + 1;
            image_top := (lft, top);
            image_bottom := (rgt, bottom) |}
  | _ => Raise (ValueError missing_offsets_msg)
  end.

(** A background-to-non-background transition at column [x] of row
    [sample_y], reading right to left: column [x+1] is background,
    column [x] is not. *)
Definition right_transition (cfg : K2pConfig) (im : image) (sample_y x : Z) : Prop :=
  getpixel im (x + 1) sample_y = background_color cfg /\
  getpixel im x sample_y <> background_color cfg.

(** A background-to-non-background transition at column [x] of row
    [sample_y], reading left to right: column [x-1] is background,
    column [x] is not. *)
Definition left_transition (cfg : K2pConfig) (im : image) (sample_y x : Z) : Prop :=
  getpixel im (x - 1) sample_y = background_color cfg /\
  getpixel im x sample_y <> background_color cfg.

(** [o] is [None] or lies in [lo..hi]. *)
Definition opt_in (lo hi : Z) (o : option Z) : Prop :=
  match o with Some v => lo <= v <= hi | None => True end.

(** The four bounds of a page when BorderScanner found all of them. *)
Definition complete_bounds (cfg : K2pConfig) (im : image) : option (Z * Z * Z * Z) :=
  match border_scan cfg im with
  | (Some l, Some t, Some r, Some b) => Some (l, t, r, b)
  | _ => None
  end.

(** Minimum and maximum of a non-empty list [x :: xs]. *)
Definition list_min (x : Z) (xs : list Z) : Z := fold_left Z.min xs x.
Definition list_max (x : Z) (xs : list Z) : Z := fold_left Z.max xs x.

(** The crop rectangle the spec describes for the complete pages
    [c :: cs]: least left and top, greatest right and bottom. *)
Definition consensus (c : Z * Z * Z * Z) (cs : list (Z * Z * Z * Z)) : geometry :=
  let '(l, t, r, b) := c in
  let lft := list_min l (map (fun '(l', _, _, _) => l') cs) in
  let top := list_min t (map (fun '(_, t', _, _) => t') cs) in
  let rgt := list_max r (map (fun '(_, _, r', _) => r') cs) in
  let bottom := list_max b (map (fun '(_, _, _, b') => b') cs) in
  {| image_width := rgt - lft + 1; image_height := bottom - top + 1;
     image_top := (lft, top); image_bottom := (rgt, bottom) |}.

(** [calc_step] on a page whose four bounds [c] were all found. *)
Definition add_complete (acc : bounds4) (c : Z * Z * Z * Z) : bounds4 :=
  let '(lft, rgt, top, bottom) := acc in
  let '(l, t, r, b) := c in
  (acc_min lft (Some l), acc_max rgt (Some r), acc_min top (Some t), acc_max bottom (Some b)).

(* ------------------------------------------------------------------ *)
(** ** Cropping *)

(** PIL's [Image.crop((left, upper, right, lower))]: the result has size
    [(right-left, lower-upper)]; pixels outside the source read as 0;
    Pillow raises [ValueError] on an inverted box. *)
Definition crop (im : image) (box : Z * Z * Z * Z) : outcome image :=
  let '(l, t, r, b) := box in
  if r <? l then Raise (ValueError "Coordinate 'right' is less than 'left'")
  else if b <? t then Raise (ValueError "Coordinate 'lower' is less than 'upper'")
  else Ok {| im_width := r - l;
             im_height := b - t;
             getpixel := fun x y =>
               let sx := x + l in
               let sy := y + t in
               if (0 <=? sx) && (sx <? im_width im) && (0 <=? sy) && (sy <? im_height im)
               then getpixel im sx sy else (0, 0, 0) |}.

(** [_crop_images(page_number)]: each page replaced by its crop. *)
Fixpoint crop_images (g : geometry) (pages : list image) : outcome (list image) :=
  match pages with
  | [] => Ok []
  | im :: pages' =>
      let* cropped_im :=
        crop im (fst (image_top g), snd (image_top g),
                 fst (image_bottom g), snd (image_bottom g)) in
      let* rest := crop_images g pages' in
      Ok (cropped_im :: rest)
  end.

(* ------------------------------------------------------------------ *)
(** ** PdfAssembler *)

(** One page of the FPDF document: its format and the image drawn by
    [pdf.image(path, 0, 0, w, h)]. *)
Record pdf_page := {
  page_w : Z;
  page_h : Z;
  placed : image;
  place_w : Z;
  place_h : Z
}.

(** [_paste_right_half(pdf, img_path)] on a page of format [fmt]. *)
Definition paste_right_half (g : geometry) (fmt : Z * Z) (im : image)
    : outcome pdf_page :=
  let half_width := image_width g / 2 in
  let* right_half := crop im (half_width, 0, image_width g, image_height g) in
  Ok {| page_w := fst fmt; page_h := snd fmt; placed := right_half;
        place_w := half_width; place_h := image_height g |}.

(** [_paste_left_half(pdf, img_path)] on a page of format [fmt]. *)
Definition paste_left_half (g : geometry) (fmt : Z * Z) (im : image)
    : outcome pdf_page :=
  let half_width := image_width g / 2 in
  let* left_half := crop im (0, 0, half_width, image_height g) in
  Ok {| page_w := fst fmt; page_h := snd fmt; placed := left_half;
        place_w := half_width; place_h := image_height g |}.

(** [_create_pdf(page_number, comic)]: the pages of the document, in
    order; [add_page()] uses the format given to [FPDF(...)]. *)
Definition create_pdf (g : geometry) (comic : bool) (pages : list image)
    : outcome (list pdf_page) :=
  if comic then
    let fmt := (image_width g / 2, image_height g) in
    (fix go (ps : list image) : outcome (list pdf_page) :=
       match ps with
       | [] => Ok []
       | im :: ps' =>
           let* pr := paste_right_half g fmt im in
           let* pl := paste_left_half g fmt im in
           let* rest := go ps' in
           Ok (pr :: pl :: rest)
       end) pages
  else
    let fmt := (image_width g, image_height g) in
    Ok (map (fun im => {| page_w := fst fmt; page_h := snd fmt; placed := im;
                          place_w := image_width g; place_h := image_height g |})
            pages).

(* ------------------------------------------------------------------ *)
(** ** CaptureSession *)

(** A screenshot; [fr_bytes] is [im.tobytes()]. *)
Record frame := {
  fr_width : Z;
  fr_height : Z;
  fr_bytes : list Z
}.

(** [PAGE_NUMBER_MAX = 500] *)
Definition PAGE_NUMBER_MAX : nat := 500.

(** The state of [_capture_all_pages]: [page_number], [self.prev_img],
    the pages saved so far as [(index, frame)] in saving order, and the
    number of screenshots taken (the next screenshot is
    [frames frame_idx]). *)
Record capture_state := {
  page_number : nat;
  prev_img : option frame;
  saved : list (nat * frame);
  frame_idx : nat
}.

Inductive loop_state :=
| Capturing (s : capture_state)
| Done (s : capture_state).

(** [_is_last_page(im)]: [None] (falsy) when there is no previous image. *)
Definition is_last_page (prev : option frame) (im : frame) : option bool :=
  match prev with
  | Some p => Some (bool_decide (fr_bytes p = fr_bytes im))
  | None => None
  end.

(** Python truthiness of the value of [_is_last_page]. *)
Definition truthy (b : option bool) : bool :=
  match b with Some true => true | _ => false end.

Definition capture_init : capture_state :=
  {| page_number := 0; prev_img := None; saved := []; frame_idx := 0 |}.

(** One iteration of [while True:] in [_capture_all_pages]; [frames i]
    is the [i]-th value of [_capture_kindle_window()]. *)
Definition capture_step (frames : nat -> frame) (s : capture_state) : loop_state :=
  let im := frames (frame_idx s) in
  if truthy (is_last_page (prev_img s) im) then Done s
  else
    let pn := S (page_number s) in
    let s' := {| page_number := pn;
                 prev_img := Some im;
                 saved := saved s ++ [(pn, im)];
                 frame_idx := S (frame_idx s) |} in
    if (PAGE_NUMBER_MAX <=? pn)%nat then Done s' else Capturing s'.

Definition advance (frames : nat -> frame) (st : loop_state) : loop_state :=
  match st with
  | Capturing s => capture_step frames s
  | Done s => Done s
  end.

(** The loop after [n] iterations from [st]. *)
Fixpoint run (frames : nat -> frame) (n : nat) (st : loop_state) : loop_state :=
  match n with
  | O => st
  | S n' => advance frames (run frames n' st)
  end.

(** The invariant of the capture loop after [k] iterations: while
    capturing, [k] pages have been saved with indices [1..k], under the
    cap, and [prev_img] is the last one saved; once done, at most
    [PAGE_NUMBER_MAX] and at least one page have been saved with
    contiguous indices. *)
Definition prev_ok (s : capture_state) : Prop :=
  match prev_img s with
  | None => saved s = []
  | Some p => last (saved s) = Some (page_number s, p)
  end.

Definition capture_inv (k : nat) (st : loop_state) : Prop :=
  match st with
  | Capturing s =>
      page_number s = k /\ frame_idx s = k /\ (k < PAGE_NUMBER_MAX)%nat /\
      map fst (saved s) = seq 1 (page_number s) /\ prev_ok s
  | Done s =>
      (1 <= page_number s <= PAGE_NUMBER_MAX)%nat /\
      map fst (saved s) = seq 1 (page_number s) /\ prev_ok s
  end.

(** A pygetwindow window: its rectangle spans columns
    [left .. left+width) and rows [top .. top+height); [right] is
    [left + width]. *)
Record window := {
  wleft : Z;
  wtop : Z;
  wwidth : Z;
  wheight : Z;
  wvisible : bool
}.


(** [_get_kindle_window()] over the windows titled ["Kindle for PC"]. *)
Definition get_kindle_window (ws : list window) : outcome window :=
  match filter (fun w => wvisible w = true) ws with
  | w :: _ => Ok w
  | [] => Raise (ValueError "Kindle window not found.")
  end.



(** The capture state inside a loop state. *)
Definition state_of (st : loop_state) : capture_state :=
  match st with Capturing s => s | Done s => s end.

(** The first [n] screenshots, saved as pages [1..n]. *)
Definition first_frames (frames : nat -> frame) (n : nat) : list (nat * frame) :=
  map (fun i => (S i, frames i)) (seq 0 n).

(** The frame [prev_img] holds after [n] pages were saved. *)
Definition last_frame (frames : nat -> frame) (n : nat) : option frame :=
  match n with O => None | S j => Some (frames j) end.

(** Consecutive screenshots [i-1] and [i] differ, for [1 <= i < n]. *)
Definition consecutive_distinct (frames : nat -> frame) (n : nat) : Prop :=
  forall i, (1 <= i < n)%nat -> fr_bytes (frames i) <> fr_bytes (frames (i - 1)%nat).


(** Sample screenshot sequences: every frame different, and a frozen
    reader returning the same frame forever. *)
Definition numbered_frames (i : nat) : frame :=
  {| fr_width := 1; fr_height := 1; fr_bytes := [Z.of_nat i] |}.

Definition static_frames (_ : nat) : frame :=
  {| fr_width := 1; fr_height := 1; fr_bytes := [0] |}.

(** The state after the first page of [numbered_frames] was saved. *)
Definition after_first_page (frames : nat -> frame) : capture_state :=
  {| page_number := 1; prev_img := Some (frames 0%nat);
     saved := [(1%nat, frames 0%nat)]; frame_idx := 1 |}.

(* ------------------------------------------------------------------ *)
(** ** Files, external tools and the end of [main_process] *)

Definition OUTPUT_FOLDER : string := "output".
Definition TEMP_BOOK_NAME : string := "temp_book.pdf".
Definition TEMP_CMP_BOOK_NAME : string := "temp_cmp_book.pdf".

(** Decimal digits of [n], prepended to [acc]. *)
Fixpoint dec_digits (fuel n : nat) (acc : string) : string :=
  match fuel with
  | O => acc
  | S f =>
      let acc' := String (ascii_of_nat (48 + n mod 10)) acc in
      if (n <? 10)%nat then acc' else dec_digits f (n / 10) acc'
  end.

(** [f'{n:04d}'] for [n >= 0]. *)
Definition fmt04d (n : nat) : string :=
  let s := dec_digits (S n) n EmptyString in
  (string_of_list_ascii (List.repeat "0"%char (4 - String.length s)) ++ s)%string.

(** [f'{OUTPUT_FOLDER}/page_{n:04d}.png'] *)
Definition page_path (n : nat) : string :=
  (OUTPUT_FOLDER ++ "/page_" ++ fmt04d n ++ ".png")%string.

(** Reading a decimal numeral back, as [int()] does on the digits of a
    page file name: [acc] is the value read so far. *)
Fixpoint parse_dec (s : string) (acc : nat) : nat :=
  match s with
  | EmptyString => acc
  | String c s' => parse_dec s' (acc * 10 + (nat_of_ascii c - 48))
  end.

Definition tmp_book_path : string := (OUTPUT_FOLDER ++ "/" ++ TEMP_BOOK_NAME)%string.
Definition tmp_cmp_book_path : string :=
  (OUTPUT_FOLDER ++ "/" ++ TEMP_CMP_BOOK_NAME)%string.

(** Observable effects: external commands run. *)
Inductive event :=
| RunGhostscript (args : list string)
| RunExiftool (input_pdf output_pdf : string).

(** The file system (paths that exist) and the commands run so far. *)
Record world := {
  files : gset string;
  log : list event
}.

(** A state and exception monad: an exception keeps the effects made
    before it was raised. *)
Definition M (A : Type) := world -> outcome A * world.

Definition Mret {A} (a : A) : M A := fun w => (Ok a, w).

Definition Mbind {A B} (m : M A) (f : A -> M B) : M B :=
  fun w => match m w with
           | (Ok a, w') => f a w'
           | (Raise e, w') => (Raise e, w')
           end.

Notation "m ;;; k" := (Mbind m (fun _ => k)) (at level 100, right associativity).

(** [os.path.exists(p)] *)
Definition path_exists (p : string) (w : world) : bool := bool_decide (p ∈ files w).

(** [os.remove(p)]: raises [FileNotFoundError] on a missing file. *)
Definition os_remove (p : string) : M unit := fun w =>
  if path_exists p w
  then (Ok tt, {| files := files w ∖ {[p]}; log := log w |})
  else (Raise (FileNotFoundError p), w).

(** [if os.path.exists(p): os.remove(p)] *)
Definition remove_if_exists (p : string) : M unit := fun w =>
  if path_exists p w then os_remove p w else (Ok tt, w).

Fixpoint remove_pages (idxs : list nat) : M unit :=
  match idxs with
  | [] => Mret tt
  | i :: idxs' => remove_if_exists (page_path (S i)) ;;; remove_pages idxs'
  end.

(** [_clean_up(page_number)] *)
Definition clean_up (page_num : nat) : M unit :=
  remove_pages (seq 0 page_num) ;;;
  remove_if_exists tmp_book_path ;;;
  remove_if_exists tmp_cmp_book_path.

(** [gs_command] of [_compress_pdf]. *)
Definition gs_command : list string :=
  ["gswin64c"; "-sDEVICE=pdfwrite"; "-dCompatibilityLevel=1.4";
   "-dPDFSETTINGS=/ebook"; "-dNOPAUSE"; "-dQUIET"; "-dBATCH";
   ("-sOutputFile=" ++ tmp_cmp_book_path)%string; tmp_book_path].

(** [subprocess.run(args, check=True)] for a tool that exits with
    [exit_code]; a successful Ghostscript run writes its output file. *)
Definition subprocess_run_check (args : list string) (out : string)
    (exit_code : Z) : M unit := fun w =>
  let w' := {| files := if exit_code =? 0 then files w ∪ {[out]} else files w;
               log := log w ++ [RunGhostscript args] |} in
  if exit_code =? 0 then (Ok tt, w') else (Raise CalledProcessError, w').

(** [try ... except subprocess.CalledProcessError]: the handler only prints. *)
Definition try_except_cpe (m : M unit) : M unit := fun w =>
  match m w with
  | (Raise CalledProcessError, w') => (Ok tt, w')
  | r => r
  end.

(** [_compress_pdf()], Ghostscript exiting with [gs_exit]. *)
Definition compress_pdf (gs_exit : Z) : M unit :=
  try_except_cpe (subprocess_run_check gs_command tmp_cmp_book_path gs_exit).

(** [os.system('exiftool ... -o "output" "input"')]: the exit status is
    discarded; exiftool writes [output] when [input] exists. *)
Definition inject_metadata (input_pdf output_pdf : string) : M unit := fun w =>
  (Ok tt, {| files := if bool_decide (input_pdf ∈ files w)
                      then files w ∪ {[output_pdf]} else files w;
             log := log w ++ [RunExiftool input_pdf output_pdf] |}).

(** Lines 439-441 of [main_process]: compress, inject metadata, clean up. *)
Definition main_tail (gs_exit : Z) (output_book_name : string) (page_num : nat)
    : M unit :=
  compress_pdf gs_exit ;;;
  inject_metadata tmp_cmp_book_path output_book_name ;;;
  clean_up page_num.

(** The paths [_clean_up(page_number)] removes when present. *)
Definition cleanup_set (page_num : nat) : gset string :=
  list_to_set (map (fun i => page_path (S i)) (seq 0 page_num)) ∪
  {[tmp_book_path; tmp_cmp_book_path]}.

(** Whether a path contains a ['/'], i.e. names a file outside the
    working directory. *)
Fixpoint has_slash (p : string) : bool :=
  match p with
  | EmptyString => false
  | String c p' => Ascii.eqb c "/"%char || has_slash p'
  end.

(** A 10x10 blank page: no border pixel, so no bound is found. *)
Definition blank_page : image :=
  {| im_width := 10; im_height := 10; getpixel := fun _ _ => (255, 255, 255) |}.

(** A world holding the uncompressed intermediate and one page. *)
Definition world_after_pdf : world :=
  {| files := {[tmp_book_path; page_path 1]}; log := [] |}.

(** The synthetic page of the spec's worked example: 800x1200, a 10px
    ring of [border_color], then a 20px margin of [background_color],
    then content of colour [content] from (30,30) to (769,1169). *)
Definition example_page (content : color) : image :=
  {| im_width := 800; im_height := 1200;
     getpixel := fun x y =>
       if (x <? 10) || (790 <=? x) || (y <? 10) || (1190 <=? y)
       then (231, 231, 231)
       else if (x <? 30) || (770 <=? x) || (y <? 30) || (1170 <=? y)
       then (255, 255, 255)
       else content |}.

Definition black : color := (0, 0, 0).

Example scan_x_example :
  detect_crop_border_x default_config (example_page black) = (Some 30, Some 769).
Proof. vm_compute. reflexivity. Qed.

Example scan_y_example :
  detect_crop_border_y default_config (example_page black) = (Some 1, Some 1197).
Proof. vm_compute. reflexivity. Qed.

(* ------------------------------------------------------------------ *)
(** ** BorderScanner: the scan observes colour classes only *)

Section ClassInvariance.
Variable cfg : K2pConfig.
Variables im1 im2 : image.
Hypothesis Hw : im_width im1 = im_width im2.
Hypothesis Hh : im_height im1 = im_height im2.
Hypothesis Hpx : forall x y, same_class cfg (getpixel im1 x y) (getpixel im2 x y).

Lemma bool_decide_class_border x y :
  bool_decide (getpixel im1 x y = border_color cfg) =
  bool_decide (getpixel im2 x y = border_color cfg).
Proof. apply bool_decide_ext, Hpx. Qed.

Lemma bool_decide_class_bg x y :
  bool_decide (getpixel im1 x y = background_color cfg) =
  bool_decide (getpixel im2 x y = background_color cfg).
Proof. apply bool_decide_ext, Hpx. Qed.

Lemma find_left_loop_class y xs bf p1 p2 :
  opt_color_eqb p1 (background_color cfg) = opt_color_eqb p2 (background_color cfg) ->
  find_left_loop cfg im1 y xs bf p1 = find_left_loop cfg im2 y xs bf p2.
Proof.
  revert bf p1 p2. induction xs as [|x xs IH]; intros bf p1 p2 Hp; simpl; [done|].
  rewrite bool_decide_class_border, bool_decide_class_bg, Hp.
  destruct bf; simpl; [destruct (_ && _)|]; try done; apply IH; simpl;
    apply bool_decide_class_bg.
Qed.

Lemma find_right_loop_class y xs p1 p2 :
  opt_color_eqb p1 (background_color cfg) = opt_color_eqb p2 (background_color cfg) ->
  find_right_loop cfg im1 y xs p1 = find_right_loop cfg im2 y xs p2.
Proof.
  revert p1 p2. induction xs as [|x xs IH]; intros p1 p2 Hp; simpl; [done|].
  rewrite bool_decide_class_bg, Hp. destruct (_ && _); [done|].
  apply IH; simpl; apply bool_decide_class_bg.
Qed.

Lemma find_top_loop_class x ys :
  find_top_loop cfg im1 x ys = find_top_loop cfg im2 x ys.
Proof.
  induction ys as [|y ys IH]; simpl; [done|].
  rewrite bool_decide_class_border, IH. done.
Qed.

Lemma find_bottom_loop_class x ys bf :
  find_bottom_loop cfg im1 x ys bf = find_bottom_loop cfg im2 x ys bf.
Proof.
  revert bf. induction ys as [|y ys IH]; intros bf; simpl; [done|].
  rewrite bool_decide_class_border. destruct bf; simpl; [destruct (bool_decide _)|]; auto.
Qed.

Lemma border_scan_class : border_scan cfg im1 = border_scan cfg im2.
Proof.
  unfold border_scan, detect_crop_border_x, detect_crop_border_y,
    find_left_border, find_right_border, find_top_border, find_bottom_border.
  rewrite Hw, Hh. simpl.
  rewrite !(find_left_loop_class _ _ _ None None), !(find_right_loop_class _ _ None None),
    !find_top_loop_class, !find_bottom_loop_class by done.
  done.
Qed.

End ClassInvariance.

Lemma example_page_class (c : color) :
  c <> (231, 231, 231) -> c <> (255, 255, 255) ->
  forall x y, same_class default_config (getpixel (example_page c) x y)
                                         (getpixel (example_page black) x y).
Proof.
  intros Hb Hg x y. unfold same_class; simpl.
  destruct (_ || _ || _ || _); [tauto|].
  destruct (_ || _ || _ || _); [tauto|].
  unfold black. split; split; intros H; congruence.
Qed.

Lemma border_scan_example_black :
  border_scan default_config (example_page black) = (Some 30, Some 1, Some 769, Some 1197).
Proof. vm_compute. reflexivity. Qed.

(** Claim C3 (as stated, refuted): on the spec's worked example (800x1200,
    10px ring of (231,231,231), 20px margin of (255,255,255), content
    from (30,30) to (769,1169), here black) BorderScanner does not return
    left=30, top=31, right=769, bottom=1169. *)
Lemma C3_example_not_31_1169 :
  border_scan default_config (example_page black) <> (Some 30, Some 31, Some 769, Some 1169).
Proof. rewrite border_scan_example_black. congruence. Qed.

(** Claim C3 (amended): on the worked example, with content of any colour
    other than the background colour, BorderScanner returns left=30,
    top=1, right=769, bottom=1197: the top bound is one row past the
    first border row (row 0) and the bottom bound one row above the
    second border row met from the bottom (row 1198). *)
Theorem C3_border_scan_example (c : color) :
  c <> (255, 255, 255) ->
  border_scan default_config (example_page c) = (Some 30, Some 1, Some 769, Some 1197).
Proof.
  intros Hg. destruct (decide (c = (231, 231, 231))) as [->|Hb].
  - vm_compute. reflexivity.
  - rewrite (border_scan_class default_config (example_page c) (example_page black));
      [apply border_scan_example_black | done | done | apply example_page_class; done].
Qed.

Lemma C3_border_scan_example_witness :
  (0, 0, 0) <> (255, 255, 255) /\
  border_scan default_config (example_page (0, 0, 0)) = (Some 30, Some 1, Some 769, Some 1197).
Proof.
  split; [discriminate|].
  apply (C3_border_scan_example (0, 0, 0)). discriminate.
Defined.

(* ------------------------------------------------------------------ *)
(** ** The right-border scan *)

Lemma range_down_cons (a lo : Z) :
  lo < a -> range_down a lo = a :: range_down (a - 1) lo.
Proof.
  intros H. unfold range_down.
  replace (Z.to_nat (a - lo)) with (S (Z.to_nat (a - 1 - lo))) by lia.
  cbn [seq map]. rewrite <- seq_shift, map_map. f_equal; [lia|].
  apply map_ext. intros i. lia.
Qed.

Lemma range_down_nil (a lo : Z) : a <= lo -> range_down a lo = [].
Proof. intros H. unfold range_down. replace (Z.to_nat (a - lo)) with 0%nat by lia. done. Qed.

Section RightBorder.
Variable cfg : K2pConfig.
Variable im : image.
Variable sample_y : Z.

Lemma find_right_loop_spec (n : nat) (s : Z) :
  Z.to_nat (s + 1) = n -> -1 <= s ->
  match find_right_loop cfg im sample_y (range_down s (-1))
          (Some (getpixel im (s + 1) sample_y)) with
  | Some x => 0 <= x <= s /\ right_transition cfg im sample_y x /\
              forall x', x < x' <= s -> ~ right_transition cfg im sample_y x'
  | None => forall x, 0 <= x <= s -> ~ right_transition cfg im sample_y x
  end.
Proof.
  revert s. induction n as [|n IH]; intros s Hn Hs.
  - rewrite range_down_nil by lia. simpl. intros x Hx. lia.
  - rewrite range_down_cons by lia. simpl.
    unfold right_transition.
    destruct (decide (getpixel im (s + 1) sample_y = background_color cfg)) as [E1|E1];
    destruct (decide (getpixel im s sample_y = background_color cfg)) as [E2|E2];
      rewrite ?(bool_decide_true _ E1), ?(bool_decide_false _ E1),
        ?(bool_decide_true _ E2), ?(bool_decide_false _ E2); simpl.
    1,3,4: (pose proof (IH (s - 1) ltac:(lia) ltac:(lia)) as IHs;
            replace (s - 1 + 1) with s in IHs by lia;
            destruct (find_right_loop _ _ _ _ _) as [x|];
            [ destruct IHs as (Hx & Ht & Hmax); split; [lia|]; split; [exact Ht|];
              intros x' Hx'; destruct (decide (x' = s)) as [->|Hne];
              [ tauto | apply Hmax; lia ]
            | intros x Hx; destruct (decide (x = s)) as [->|Hne];
              [ tauto | apply IHs; lia ] ]).
    split; [lia|]. split; [split; assumption|]. intros x' Hx'. lia.
Qed.

End RightBorder.

(** The right-border scan and its first transition. *)
Lemma find_right_border_correct (cfg : K2pConfig) (im : image) (sample_y : Z) :
  let start := im_width im - 20 in
  match find_right_border cfg im sample_y with
  | Some x => 0 <= x < start /\ right_transition cfg im sample_y x /\
              forall x', x < x' < start -> ~ right_transition cfg im sample_y x'
  | None => forall x, 0 <= x < start -> ~ right_transition cfg im sample_y x
  end.
Proof.
  cbv zeta. unfold find_right_border.
  destruct (Z_lt_ge_dec (im_width im - 20) 0) as [Hneg|Hpos].
  - rewrite range_down_nil by lia. simpl. intros x Hx. lia.
  - rewrite range_down_cons by lia. simpl.
    pose proof (find_right_loop_spec cfg im sample_y (Z.to_nat (im_width im - 20 - 1 + 1))
                  (im_width im - 20 - 1) eq_refl ltac:(lia)) as Hs.
    replace (im_width im - 20 - 1 + 1) with (im_width im - 20) in Hs by lia.
    destruct (find_right_loop _ _ _ _ _) as [x|].
    + destruct Hs as (Hx & Ht & Hmax). split; [lia|]. split; [exact Ht|].
      intros x' Hx'. apply Hmax. lia.
    + intros x Hx. apply Hs. lia.
Qed.

(** Claim C8: the right-border scan of a sample row starts at column
    [width - 20] and walks right to left; it returns the first column
    [x] met whose right-hand neighbour (the column visited just before)
    is [background_color] while [x] itself is not, and returns [None]
    when no column of the scanned range has such a transition. *)
Theorem C8_find_right_border_spec (cfg : K2pConfig) (im : image) (sample_y : Z) :
  let start := im_width im - 20 in
  match find_right_border cfg im sample_y with
  | Some x => 0 <= x < start /\ right_transition cfg im sample_y x /\
              forall x', x < x' < start -> ~ right_transition cfg im sample_y x'
  | None => forall x, 0 <= x < start -> ~ right_transition cfg im sample_y x
  end.
Proof. exact (find_right_border_correct cfg im sample_y). Qed.

(* ------------------------------------------------------------------ *)
(** ** PageGeometryResolver *)

Lemma calc_step_complete cfg acc im :
  calc_step cfg acc im =
  match complete_bounds cfg im with Some c => add_complete acc c | None => acc end.
Proof.
  unfold calc_step, complete_bounds, border_scan.
  destruct acc as [[[lft rgt] top] bottom].
  destruct (detect_crop_border_x cfg im) as [[l|] [r|]];
  destruct (detect_crop_border_y cfg im) as [[t|] [b|]]; done.
Qed.

Lemma fold_calc_step cfg pages acc :
  fold_left (calc_step cfg) pages acc =
  fold_left add_complete (omap (complete_bounds cfg) pages) acc.
Proof.
  revert acc. induction pages as [|im pages IH]; intros acc; [done|].
  simpl. rewrite calc_step_complete.
  destruct (complete_bounds cfg im) as [c|]; simpl; apply IH.
Qed.

Lemma fold_add_complete_some cs l t r b :
  fold_left add_complete cs (Some l, Some r, Some t, Some b) =
  (Some (list_min l (map (fun '(l', _, _, _) => l') cs)),
   Some (list_max r (map (fun '(_, _, r', _) => r') cs)),
   Some (list_min t (map (fun '(_, t', _, _) => t') cs)),
   Some (list_max b (map (fun '(_, _, _, b') => b') cs))).
Proof.
  unfold list_min, list_max.
  revert l t r b. induction cs as [|[[[l' t'] r'] b'] cs IH]; intros l t r b; [done|].
  simpl. apply IH.
Qed.

(** Claim C4: [_calc_image_size] raises its [ValueError] exactly when no
    page yields all four bounds; otherwise its rectangle has the least
    left and top and the greatest right and bottom over exactly the
    pages with all four bounds (in page order [c :: cs]), and the
    other pages contribute nothing. *)
Theorem C4_calc_image_size_spec (cfg : K2pConfig) (pages : list image) :
  ((exists e, calc_image_size cfg pages = Raise e) <->
   omap (complete_bounds cfg) pages = []) /\
  (omap (complete_bounds cfg) pages = [] ->
   calc_image_size cfg pages = Raise (ValueError missing_offsets_msg)) /\
  (forall c cs, omap (complete_bounds cfg) pages = c :: cs ->
   calc_image_size cfg pages = Ok (consensus c cs)).
Proof.
  assert (Hnil : omap (complete_bounds cfg) pages = [] ->
                 calc_image_size cfg pages = Raise (ValueError missing_offsets_msg)).
  { intros H. unfold calc_image_size. rewrite fold_calc_step, H. done. }
  assert (Hcons : forall c cs, omap (complete_bounds cfg) pages = c :: cs ->
                  calc_image_size cfg pages = Ok (consensus c cs)).
  { intros [[[l t] r] b] cs H. unfold calc_image_size.
    rewrite fold_calc_step, H. simpl. rewrite fold_add_complete_some. done. }
  split; [|split; assumption].
  split.
  - intros [e He]. destruct (omap (complete_bounds cfg) pages) as [|c cs] eqn:E; [done|].
    rewrite (Hcons c cs eq_refl) in He. discriminate.
  - intros H. eexists. apply Hnil, H.
Qed.

Lemma C4_calc_image_size_spec_witness :
  omap (complete_bounds default_config) [example_page black] = [(30, 1, 769, 1197)] /\
  calc_image_size default_config [example_page black] =
    Ok (consensus (30, 1, 769, 1197) []).
Proof.
  assert (H : omap (complete_bounds default_config) [example_page black] =
              [(30, 1, 769, 1197)]).
  { vm_compute. reflexivity. }
  split; [exact H|].
  apply (proj2 (proj2 (C4_calc_image_size_spec default_config [example_page black]))).
  exact H.
Defined.

(* ------------------------------------------------------------------ *)
(** ** Cropping and PDF assembly *)

Lemma crop_dims im l t r b im' :
  crop im (l, t, r, b) = Ok im' -> im_width im' = r - l /\ im_height im' = b - t.
Proof.
  unfold crop. destruct (r <? l); [discriminate|]. destruct (b <? t); [discriminate|].
  intros H. injection H as <-. done.
Qed.

(** Every page cropped by [_crop_images] has the same size: the
    difference of the crop box's coordinates, as PIL computes it. *)
Lemma crop_images_uniform g pages ims :
  crop_images g pages = Ok ims ->
  Forall (fun im => im_width im = fst (image_bottom g) - fst (image_top g) /\
                    im_height im = snd (image_bottom g) - snd (image_top g)) ims.
Proof.
  revert ims. induction pages as [|im pages IH]; intros ims H; cbn [crop_images] in H.
  - injection H as <-. constructor.
  - destruct (crop im _) as [cim|e] eqn:Ec; [|discriminate]. cbn [obind] in H.
    destruct (crop_images g pages) as [rest|e]; [|discriminate]. cbn [obind] in H.
    injection H as <-. constructor; [|apply IH; done].
    apply (crop_dims _ _ _ _ _ _ Ec).
Qed.

(** Claim C2 (code_bug): on the worked-example page the resolved
    rectangle is left=30, top=1, right=769, bottom=1197, and
    [_calc_image_size] records width 740 = right-left+1 and height
    1197 = bottom-top+1, but [_crop_images] yields a 739x1196 image:
    PIL's crop box excludes the right and bottom bounds. *)
Theorem C2_crop_drops_last_column_and_row :
  match calc_image_size default_config [example_page black] with
  | Ok g =>
      image_top g = (30, 1) /\ image_bottom g = (769, 1197) /\
      image_width g = 740 /\ image_height g = 1197 /\
      match crop_images g [example_page black] with
      | Ok ims => map (fun im => (im_width im, im_height im)) ims = [(739, 1196)]
      | Raise _ => False
      end
  | Raise _ => False
  end.
Proof. vm_compute. repeat split. Qed.

(** Claim C7 (code_bug, same defect as C2): for the worked-example page,
    cropped to 739x1196, comic mode emits two pages (right half, then
    left half) of format 370x1197, i.e. [image_width // 2] by
    [image_height], not floor(739/2)=369 by 1196. *)
Theorem C7_comic_pages_of_example :
  match calc_image_size default_config [example_page black] with
  | Ok g =>
      match crop_images g [example_page black] with
      | Ok ims =>
          map (fun im => (im_width im, im_height im)) ims = [(739, 1196)] /\
          match create_pdf g true ims with
          | Ok pdf =>
              map (fun p => (page_w p, page_h p, place_w p, place_h p)) pdf =
                [(370, 1197, 370, 1197); (370, 1197, 370, 1197)] /\
              map (fun p => im_width (placed p)) pdf = [370; 370]
          | Raise _ => False
          end
      | Raise _ => False
      end
  | Raise _ => False
  end.
Proof. vm_compute. repeat split. Qed.

(* ------------------------------------------------------------------ *)
(** ** CaptureSession *)

Lemma capture_run_inv (frames : nat -> frame) (k : nat) :
  capture_inv k (run frames k (Capturing capture_init)).
Proof.
  induction k as [|k IH].
  - simpl. repeat split; try done. unfold PAGE_NUMBER_MAX. lia.
  - cbn [run]. destruct (run frames k (Capturing capture_init)) as [s|s]; simpl in *.
    + destruct IH as (Hpn & Hfi & Hlt & Hidx & Hprev).
      unfold capture_step.
      destruct (truthy (is_last_page (prev_img s) (frames (frame_idx s)))) eqn:Et.
      * (* duplicate frame: stop, nothing saved *)
        destruct (prev_img s) as [p|] eqn:Ep; [|discriminate].
        repeat split; try done; try lia.
        unfold prev_ok in Hprev. rewrite Ep in Hprev.
        destruct (page_number s) as [|n]; [|lia].
        destruct (saved s); discriminate.
      * assert (Hgood : map fst (saved s ++ [(S (page_number s), frames (frame_idx s))]) =
                        seq 1 (S (page_number s)) /\
                        last (saved s ++ [(S (page_number s), frames (frame_idx s))]) =
                        Some (S (page_number s), frames (frame_idx s))).
        { rewrite map_app, Hidx, seq_S, last_snoc. done. }
        destruct Hgood as [Hg1 Hg2].
        destruct (PAGE_NUMBER_MAX <=? S (page_number s))%nat eqn:Em; simpl.
        -- repeat split; try done; lia.
        -- apply Nat.leb_gt in Em. repeat split; try done; lia.
    + exact IH.
Qed.

Lemma run_add (frames : nat -> frame) (m k : nat) (st : loop_state) :
  run frames (m + k) st = run frames m (run frames k st).
Proof. induction m as [|m IH]; simpl; [done|]. rewrite IH. done. Qed.

Lemma run_done (frames : nat -> frame) (m : nat) (s : capture_state) :
  run frames m (Done s) = Done s.
Proof. induction m as [|m IH]; simpl; [done|]. rewrite IH. done. Qed.

(** Claim C5: whatever frames the reader returns (also when no two
    consecutive frames are ever byte-identical), the capture loop has
    stopped after [PAGE_NUMBER_MAX] = 500 iterations, stays stopped,
    and has saved at most 500 pages. *)
Theorem C5_capture_terminates_within_cap (frames : nat -> frame) :
  exists s, run frames PAGE_NUMBER_MAX (Capturing capture_init) = Done s /\
    (page_number s <= PAGE_NUMBER_MAX)%nat /\
    (length (saved s) <= PAGE_NUMBER_MAX)%nat /\
    forall n, (PAGE_NUMBER_MAX <= n)%nat ->
      run frames n (Capturing capture_init) = Done s.
Proof.
  pose proof (capture_run_inv frames PAGE_NUMBER_MAX) as Hinv.
  destruct (run frames PAGE_NUMBER_MAX (Capturing capture_init)) as [s|s] eqn:E;
    simpl in Hinv.
  - lia.
  - destruct Hinv as (Hpn & Hidx & _). exists s.
    split; [done|]. split; [lia|]. split.
    + rewrite <- (length_map fst), Hidx, length_seq. lia.
    + intros n Hn. replace n with ((n - PAGE_NUMBER_MAX) + PAGE_NUMBER_MAX)%nat by lia.
      rewrite run_add, E. apply run_done.
Qed.

(** Claim C6: in the capture loop, when a previous frame [p] exists
    (it is the last page saved, under index [page_number]) and the new
    frame has the same bytes, the loop stops without saving it; when
    the bytes differ the new frame is saved under index
    [page_number + 1], keeping indices 1-based and contiguous. *)
Theorem C6_duplicate_stops_else_next_index (frames : nat -> frame) (k : nat)
    (s : capture_state) (p : frame) :
  run frames k (Capturing capture_init) = Capturing s ->
  prev_img s = Some p ->
  last (saved s) = Some (page_number s, p) /\
  (fr_bytes (frames (frame_idx s)) = fr_bytes p ->
   advance frames (Capturing s) = Done s) /\
  (fr_bytes (frames (frame_idx s)) <> fr_bytes p ->
   exists s', (advance frames (Capturing s) = Capturing s' \/
               advance frames (Capturing s) = Done s') /\
     saved s' = saved s ++ [(S (page_number s), frames (frame_idx s))] /\
     map fst (saved s') = seq 1 (S (page_number s))).
Proof.
  intros Hrun Hp. pose proof (capture_run_inv frames k) as Hinv.
  rewrite Hrun in Hinv. destruct Hinv as (_ & _ & _ & Hidx & Hprev).
  unfold prev_ok in Hprev. rewrite Hp in Hprev.
  split; [exact Hprev|]. cbn [advance]. unfold capture_step. rewrite Hp.
  cbn [is_last_page].
  split.
  - intros Heq. rewrite (bool_decide_true _ (eq_sym Heq)). done.
  - intros Hne. rewrite bool_decide_false by congruence. cbn [truthy].
    eexists. split.
    + destruct (PAGE_NUMBER_MAX <=? S (page_number s))%nat; [right|left]; reflexivity.
    + cbn [saved]. split; [done|]. rewrite map_app, Hidx, seq_S. done.
Qed.

Lemma C6_duplicate_stops_else_next_index_witness :
  run numbered_frames 1 (Capturing capture_init) =
    Capturing (after_first_page numbered_frames) /\
  prev_img (after_first_page numbered_frames) = Some (numbered_frames 0%nat) /\
  exists s', (advance numbered_frames (Capturing (after_first_page numbered_frames)) =
                Capturing s' \/
              advance numbered_frames (Capturing (after_first_page numbered_frames)) =
                Done s') /\
    saved s' = [(1%nat, numbered_frames 0%nat); (2%nat, numbered_frames 1%nat)] /\
    map fst (saved s') = seq 1 2.
Proof.
  split; [reflexivity|]. split; [reflexivity|].
  apply (proj2 (proj2 (C6_duplicate_stops_else_next_index numbered_frames 1
           (after_first_page numbered_frames) (numbered_frames 0%nat)
           eq_refl eq_refl))).
  simpl. discriminate.
Defined.

(** Claim C9: on the first iteration there is no previous frame, so
    [_is_last_page] returns [None] (falsy) and the first frame is saved
    as page 1; whenever the loop has stopped, at least one page has
    been saved. *)
Theorem C9_first_frame_saved (frames : nat -> frame) :
  is_last_page (prev_img capture_init) (frames 0%nat) = None /\
  run frames 1 (Capturing capture_init) = Capturing (after_first_page frames) /\
  (forall k s, run frames k (Capturing capture_init) = Done s ->
     (1 <= page_number s)%nat /\ saved s <> []).
Proof.
  split; [done|]. split; [done|].
  intros k s Hrun. pose proof (capture_run_inv frames k) as Hinv.
  rewrite Hrun in Hinv. destruct Hinv as (Hpn & Hidx & _).
  split; [lia|]. intros Hs. rewrite Hs in Hidx.
  destruct (page_number s) as [|n]; [lia|]. discriminate.
Qed.

Lemma C9_first_frame_saved_witness :
  run static_frames 2 (Capturing capture_init) = Done (after_first_page static_frames) /\
  (1 <= page_number (after_first_page static_frames))%nat /\
  saved (after_first_page static_frames) <> [].
Proof.
  split; [reflexivity|].
  apply (proj2 (proj2 (C9_first_frame_saved static_frames)) 2%nat). reflexivity.
Defined.

(* ------------------------------------------------------------------ *)
(** ** Clean-up *)

Lemma remove_if_exists_eq (p : string) (w : world) :
  remove_if_exists p w = (Ok tt, {| files := files w ∖ {[p]}; log := log w |}).
Proof.
  unfold remove_if_exists, os_remove, path_exists.
  destruct (decide (p ∈ files w)) as [E|E].
  { rewrite (bool_decide_true _ E). done. }
  rewrite (bool_decide_false _ E).
  replace (files w ∖ {[p]}) with (files w) by set_solver.
  destruct w. done.
Qed.

Lemma remove_pages_eq (idxs : list nat) (w : world) :
  remove_pages idxs w =
  (Ok tt, {| files := files w ∖ list_to_set (map (fun i => page_path (S i)) idxs);
             log := log w |}).
Proof.
  revert w. induction idxs as [|i idxs IH]; intros w; simpl.
  - unfold Mret. replace (files w ∖ ∅) with (files w) by set_solver. destruct w. done.
  - unfold Mbind at 1. rewrite remove_if_exists_eq, IH. simpl.
    f_equal. f_equal. set_solver.
Qed.

Lemma clean_up_eq (n : nat) (w : world) :
  clean_up n w = (Ok tt, {| files := files w ∖ cleanup_set n; log := log w |}).
Proof.
  unfold clean_up, Mbind. rewrite remove_pages_eq, !remove_if_exists_eq. simpl.
  unfold cleanup_set. f_equal. f_equal. set_solver.
Qed.

Lemma has_slash_app (a b : string) : has_slash (a ++ b) = has_slash a || has_slash b.
Proof.
  induction a as [|c a IH]; simpl; [done|]. rewrite IH. apply orb_assoc.
Qed.

Lemma cleanup_set_has_slash (n : nat) (p : string) :
  p ∈ cleanup_set n -> has_slash p = true.
Proof.
  unfold cleanup_set. rewrite elem_of_union, elem_of_list_to_set.
  intros [Hp|Hp].
  - apply list_elem_of_fmap in Hp as (i & -> & _). reflexivity.
  - rewrite elem_of_union, !elem_of_singleton in Hp.
    destruct Hp as [->| ->]; reflexivity.
Qed.

(** Claim C10: [_clean_up(N)] never raises (each path is checked with
    [os.path.exists] before [os.remove]); it removes exactly
    [output/page_0001.png] .. [output/page_{N:04d}.png],
    [output/temp_book.pdf] and [output/temp_cmp_book.pdf], keeps every
    other file, and in particular keeps the final output [<name>.pdf]
    of a name in the working directory (without a ['/']). *)
Theorem C10_clean_up_removes_exactly (n : nat) (w : world) :
  clean_up n w = (Ok tt, {| files := files w ∖ cleanup_set n; log := log w |}) /\
  cleanup_set n =
    list_to_set (map page_path (seq 1 n)) ∪
    {[("output/" ++ "temp_book.pdf")%string; ("output/" ++ "temp_cmp_book.pdf")%string]} /\
  (forall p, p ∉ cleanup_set n -> (p ∈ files (snd (clean_up n w)) <-> p ∈ files w)) /\
  (forall name, has_slash name = false ->
     ((name ++ ".pdf")%string ∈ files (snd (clean_up n w)) <->
      (name ++ ".pdf")%string ∈ files w)).
Proof.
  rewrite clean_up_eq. split; [done|]. split.
  { unfold cleanup_set. rewrite <- seq_shift, map_map. done. }
  split.
  - intros p Hp. simpl. set_solver.
  - intros name Hname. simpl. rewrite elem_of_difference.
    assert ((name ++ ".pdf")%string ∉ cleanup_set n).
    { intros Hin. apply cleanup_set_has_slash in Hin.
      rewrite has_slash_app, Hname in Hin. discriminate. }
    tauto.
Qed.

Lemma C10_clean_up_removes_exactly_witness :
  has_slash "kindle_book" = false /\
  (("kindle_book" ++ ".pdf")%string ∈ files (snd (clean_up 1 world_after_pdf)) <->
   ("kindle_book" ++ ".pdf")%string ∈ files world_after_pdf).
Proof.
  split; [reflexivity|].
  apply (proj2 (proj2 (proj2 (C10_clean_up_removes_exactly 1 world_after_pdf))) "kindle_book").
  reflexivity.
Defined.

(* ------------------------------------------------------------------ *)
(** ** Compression failure in [main_process] *)

Lemma main_tail_eq (gs_exit : Z) (name : string) (n : nat) (w : world) :
  gs_exit <> 0 ->
  main_tail gs_exit name n w =
  (Ok tt,
   {| files := (if bool_decide (tmp_cmp_book_path ∈ files w)
                then files w ∪ {[name]} else files w) ∖ cleanup_set n;
      log := log w ++ [RunGhostscript gs_command; RunExiftool tmp_cmp_book_path name] |}).
Proof.
  intros Hne. unfold main_tail, Mbind, compress_pdf, try_except_cpe, subprocess_run_check.
  rewrite (proj2 (Z.eqb_neq gs_exit 0) Hne).
  unfold inject_metadata. rewrite clean_up_eq. simpl. rewrite <- app_assoc. done.
Qed.

(** Claim C1 (as stated, refuted): after the compressor exits with
    status 1, metadata injection is not run on [output/temp_book.pdf]
    and, with no compressed intermediate on disk, the final
    [kindle_book.pdf] is not produced. *)
Lemma C1_no_substitution_example :
  let r := main_tail 1 "kindle_book.pdf" 1 world_after_pdf in
  fst r = Ok tt /\
  ~ In (RunExiftool tmp_book_path "kindle_book.pdf") (log (snd r)) /\
  In (RunExiftool tmp_cmp_book_path "kindle_book.pdf") (log (snd r)) /\
  "kindle_book.pdf"%string ∉ files (snd r).
Proof.
  cbv zeta. rewrite main_tail_eq by lia. simpl.
  split; [done|]. split; [|split].
  - intros [H|[H|[]]]; discriminate.
  - right. left. done.
  - rewrite bool_decide_false by (vm_compute; set_solver).
    unfold world_after_pdf. simpl. set_solver.
Qed.

(** Claim C1 (amended): when the compressor exits nonzero, the
    [CalledProcessError] is caught and the run is not aborted: metadata
    injection is still run, on [output/temp_cmp_book.pdf] (there is no
    substitution of [output/temp_book.pdf]), and the clean-up follows. *)
Theorem C1_compress_failure_not_fatal (gs_exit : Z) (name : string) (n : nat)
    (w : world) :
  gs_exit <> 0 ->
  fst (main_tail gs_exit name n w) = Ok tt /\
  log (snd (main_tail gs_exit name n w)) =
    log w ++ [RunGhostscript gs_command; RunExiftool tmp_cmp_book_path name] /\
  files (snd (main_tail gs_exit name n w)) =
    (if bool_decide (tmp_cmp_book_path ∈ files w)
     then files w ∪ {[name]} else files w) ∖ cleanup_set n.
Proof. intros Hne. rewrite main_tail_eq by exact Hne. simpl. done. Qed.

Lemma C1_compress_failure_not_fatal_witness :
  1 <> 0 /\
  fst (main_tail 1 "kindle_book.pdf" 1 world_after_pdf) = Ok tt /\
  log (snd (main_tail 1 "kindle_book.pdf" 1 world_after_pdf)) =
    log world_after_pdf ++
    [RunGhostscript gs_command; RunExiftool tmp_cmp_book_path "kindle_book.pdf"] /\
  files (snd (main_tail 1 "kindle_book.pdf" 1 world_after_pdf)) =
    (if bool_decide (tmp_cmp_book_path ∈ files world_after_pdf)
     then files world_after_pdf ∪ {[ "kindle_book.pdf"%string ]}
     else files world_after_pdf) ∖ cleanup_set 1.
Proof.
  split; [lia|]. apply (C1_compress_failure_not_fatal 1 "kindle_book.pdf" 1 world_after_pdf).
  lia.
Defined.

(* ------------------------------------------------------------------ *)
(** ** Comic mode in general *)

Lemma paste_halves_ok (g : geometry) (fmt : Z * Z) (im : image) :
  0 <= image_width g -> 0 <= image_height g ->
  exists pr pl, paste_right_half g fmt im = Ok pr /\ paste_left_half g fmt im = Ok pl /\
    im_width (placed pr) = image_width g - image_width g / 2 /\
    im_width (placed pl) = image_width g / 2 /\
    page_w pr = fst fmt /\ page_h pr = snd fmt /\ page_w pl = fst fmt /\ page_h pl = snd fmt.
Proof.
  intros Hw Hh. unfold paste_right_half, paste_left_half, crop.
  assert (Hd : 0 <= image_width g / 2 <= image_width g) by (split; [apply Z.div_pos|apply Z.div_le_upper_bound]; lia).
  rewrite (proj2 (Z.ltb_ge (image_width g) (image_width g / 2))) by lia.
  rewrite (proj2 (Z.ltb_ge (image_width g / 2) 0)) by lia.
  rewrite (proj2 (Z.ltb_ge (image_height g) 0)) by lia.
  simpl. do 2 eexists. repeat split; simpl; lia.
Qed.

(** In comic mode, each source page gives two consecutive PDF pages,
    the right half first, each of format [image_width // 2] by
    [image_height]. *)
Lemma create_pdf_comic_shape (g : geometry) (pages : list image) :
  0 <= image_width g -> 0 <= image_height g ->
  exists pairs,
    Forall2 (fun im '(pr, pl) =>
               paste_right_half g (image_width g / 2, image_height g) im = Ok pr /\
               paste_left_half g (image_width g / 2, image_height g) im = Ok pl) pages pairs /\
    create_pdf g true pages = Ok (flat_map (fun '(pr, pl) => [pr; pl]) pairs) /\
    Forall (fun '(pr, pl) => page_w pr = image_width g / 2 /\ page_h pr = image_height g /\
                             page_w pl = image_width g / 2 /\ page_h pl = image_height g) pairs.
Proof.
  intros Hw Hh. unfold create_pdf. simpl.
  induction pages as [|im pages IH].
  - exists []. repeat constructor.
  - destruct IH as (pairs & Hf & Hc & Hs).
    destruct (paste_halves_ok g (image_width g / 2, image_height g) im Hw Hh)
      as (pr & pl & Hr & Hl & _ & _ & H1 & H2 & H3 & H4).
    exists ((pr, pl) :: pairs). split; [constructor; auto|]. split.
    + rewrite Hr, Hl. simpl. rewrite Hc. done.
    + constructor; [simpl in *; auto|exact Hs].
Qed.

(* ------------------------------------------------------------------ *)
(** ** The left, top and bottom border scans *)

Lemma range_up_cons (a b : Z) : a < b -> range_up a b = a :: range_up (a + 1) b.
Proof.
  intros H. unfold range_up.
  replace (Z.to_nat (b - a)) with (S (Z.to_nat (b - (a + 1)))) by lia.
  cbn [seq map]. rewrite <- seq_shift, map_map. f_equal; [lia|].
  apply map_ext. intros i. lia.
Qed.

Lemma range_up_nil (a b : Z) : b <= a -> range_up a b = [].
Proof. intros H. unfold range_up. replace (Z.to_nat (b - a)) with 0%nat by lia. done. Qed.

Ltac case_pixel E P :=
  destruct (decide P) as [E|E];
  [rewrite ?(bool_decide_true _ E) | rewrite ?(bool_decide_false _ E)].

Section LeftBorder.
Variable cfg : K2pConfig.
Variable im : image.
Variable sample_y : Z.

(** Once a border pixel has been seen, the scan returns the first
    left-to-right transition of the remaining columns. *)
Lemma find_left_armed_spec (n : nat) (a : Z) :
  Z.to_nat ((im_width im) - a) = n ->
  match find_left_loop cfg im sample_y (range_up a (im_width im)) true (Some (getpixel im (a - 1) sample_y)) with
  | Some x => a <= x < (im_width im) /\ left_transition cfg im sample_y x /\
              forall x', a <= x' < x -> ~ left_transition cfg im sample_y x'
  | None => forall x, a <= x < (im_width im) -> ~ left_transition cfg im sample_y x
  end.
Proof.
  revert a. induction n as [|n IH]; intros a Hn.
  - rewrite range_up_nil by lia. simpl. intros x Hx. lia.
  - rewrite range_up_cons by lia. cbn [find_left_loop negb opt_color_eqb].
    unfold left_transition.
    case_pixel E1 (getpixel im (a - 1) sample_y = background_color cfg);
    case_pixel E2 (getpixel im a sample_y = background_color cfg); cbn [andb negb].
    2: { split; [lia|]. split; [split; assumption|]. intros x' Hx'. lia. }
    all: pose proof (IH (a + 1) ltac:(lia)) as IHa;
         replace (a + 1 - 1) with a in IHa by lia;
         destruct (find_left_loop _ _ _ _ _ _) as [x|];
         [ destruct IHa as (Hx & Ht & Hmin); split; [lia|]; split; [exact Ht|];
           intros x' Hx'; destruct (decide (x' = a)) as [->|Hne];
           [ tauto | apply Hmin; lia ]
         | intros x Hx; destruct (decide (x = a)) as [->|Hne];
           [ tauto | apply IHa; lia ] ].
Qed.

(** Before any border pixel: the scan looks for the first border column
    [x0], then for the first transition after it. *)
Lemma find_left_unarmed_spec (n : nat) (a : Z) (prev : option color) :
  Z.to_nat ((im_width im) - a) = n ->
  match find_left_loop cfg im sample_y (range_up a (im_width im)) false prev with
  | Some x => exists x0, a <= x0 < x /\ getpixel im x0 sample_y = border_color cfg /\
              (forall x', a <= x' < x0 -> getpixel im x' sample_y <> border_color cfg) /\
              x < (im_width im) /\ left_transition cfg im sample_y x /\
              forall x', x0 < x' < x -> ~ left_transition cfg im sample_y x'
  | None => (forall x, a <= x < (im_width im) -> getpixel im x sample_y <> border_color cfg) \/
            exists x0, a <= x0 < (im_width im) /\ getpixel im x0 sample_y = border_color cfg /\
              (forall x', a <= x' < x0 -> getpixel im x' sample_y <> border_color cfg) /\
              forall x', x0 < x' < (im_width im) -> ~ left_transition cfg im sample_y x'
  end.
Proof.
  revert a prev. induction n as [|n IH]; intros a prev Hn.
  - rewrite range_up_nil by lia. simpl. left. intros x Hx. lia.
  - rewrite range_up_cons by lia. cbn [find_left_loop negb].
    case_pixel E (getpixel im a sample_y = border_color cfg).
    + pose proof (find_left_armed_spec (Z.to_nat ((im_width im) - (a + 1))) (a + 1) eq_refl) as H.
      replace (a + 1 - 1) with a in H by lia.
      destruct (find_left_loop _ _ _ _ _ _) as [x|].
      * destruct H as (Hx & Ht & Hmin). exists a.
        split; [lia|]. split; [exact E|]. split; [intros; lia|].
        split; [lia|]. split; [exact Ht|]. intros x' Hx'. apply Hmin. lia.
      * right. exists a. split; [lia|]. split; [exact E|]. split; [intros; lia|].
        intros x' Hx'. apply H. lia.
    + pose proof (IH (a + 1) (Some (getpixel im a sample_y)) ltac:(lia)) as H.
      destruct (find_left_loop _ _ _ _ _ _) as [x|].
      * destruct H as (x0 & Hx0 & Hb & Hfirst & Hrest). exists x0.
        split; [lia|]. split; [exact Hb|]. split; [|exact Hrest].
        intros x' Hx'. destruct (decide (x' = a)) as [->|]; [exact E|]. apply Hfirst. lia.
      * destruct H as [Hnone|(x0 & Hx0 & Hb & Hfirst & Hrest)].
        -- left. intros x Hx. destruct (decide (x = a)) as [->|]; [exact E|]. apply Hnone. lia.
        -- right. exists x0. split; [lia|]. split; [exact Hb|]. split; [|exact Hrest].
           intros x' Hx'. destruct (decide (x' = a)) as [->|]; [exact E|]. apply Hfirst. lia.
Qed.

End LeftBorder.

(** Extra: [_find_left_border] returns [x] exactly when, after the
    first border-coloured column [x0] of the row, [x] is the first
    column whose left neighbour is background and which itself is not;
    it returns [None] when the row has no border pixel or no such
    transition after the first one. *)
Theorem find_left_border_spec (cfg : K2pConfig) (im : image) (sample_y : Z) :
  match find_left_border cfg im sample_y with
  | Some x => exists x0, 0 <= x0 < x /\ x < im_width im /\
              getpixel im x0 sample_y = border_color cfg /\
              (forall x', 0 <= x' < x0 -> getpixel im x' sample_y <> border_color cfg) /\
              left_transition cfg im sample_y x /\
              forall x', x0 < x' < x -> ~ left_transition cfg im sample_y x'
  | None => (forall x, 0 <= x < im_width im -> getpixel im x sample_y <> border_color cfg) \/
            exists x0, 0 <= x0 < im_width im /\ getpixel im x0 sample_y = border_color cfg /\
              (forall x', 0 <= x' < x0 -> getpixel im x' sample_y <> border_color cfg) /\
              forall x', x0 < x' < im_width im -> ~ left_transition cfg im sample_y x'
  end.
Proof.
  unfold find_left_border.
  pose proof (find_left_unarmed_spec cfg im sample_y (Z.to_nat (im_width im - 0)) 0 None
                eq_refl) as H.
  destruct (find_left_loop _ _ _ _ _ _) as [x|]; [|exact H].
  destruct H as (x0 & Hx0 & Hb & Hfirst & Hw & Ht & Hmin).
  exists x0. split; [lia|]. split; [lia|]. split; [exact Hb|].
  split; [exact Hfirst|]. split; [exact Ht|exact Hmin].
Qed.

Section TopBottom.
Variable cfg : K2pConfig.
Variable im : image.
Variable sample_x : Z.

Lemma find_top_loop_spec (n : nat) (a : Z) :
  Z.to_nat (im_height im - a) = n ->
  match find_top_loop cfg im sample_x (range_up a (im_height im)) with
  | Some r => exists y, r = y + 1 /\ a <= y < im_height im /\
              getpixel im sample_x y = border_color cfg /\
              forall y', a <= y' < y -> getpixel im sample_x y' <> border_color cfg
  | None => forall y, a <= y < im_height im -> getpixel im sample_x y <> border_color cfg
  end.
Proof.
  revert a. induction n as [|n IH]; intros a Hn.
  - rewrite range_up_nil by lia. simpl. intros y Hy. lia.
  - rewrite range_up_cons by lia. cbn [find_top_loop].
    case_pixel E (getpixel im sample_x a = border_color cfg).
    + exists a. split; [lia|]. split; [lia|]. split; [exact E|]. intros y' Hy'. lia.
    + pose proof (IH (a + 1) ltac:(lia)) as H.
      destruct (find_top_loop _ _ _ _) as [r|].
      * destruct H as (y & -> & Hy & Hb & Hfirst). exists y.
        split; [lia|]. split; [lia|]. split; [exact Hb|]. intros y' Hy'.
        destruct (decide (y' = a)) as [->|]; [exact E|]. apply Hfirst. lia.
      * intros y Hy. destruct (decide (y = a)) as [->|]; [exact E|]. apply H. lia.
Qed.

(** After the first border pixel from the bottom, the scan returns one
    above the next border pixel met going up. *)
Lemma find_bottom_armed_spec (n : nat) (s : Z) :
  Z.to_nat (s + 1) = n ->
  match find_bottom_loop cfg im sample_x (range_down s (-1)) true with
  | Some r => exists y, r = y - 1 /\ 0 <= y <= s /\
              getpixel im sample_x y = border_color cfg /\
              forall y', y < y' <= s -> getpixel im sample_x y' <> border_color cfg
  | None => forall y, 0 <= y <= s -> getpixel im sample_x y <> border_color cfg
  end.
Proof.
  revert s. induction n as [|n IH]; intros s Hn.
  - rewrite range_down_nil by lia. simpl. intros y Hy. lia.
  - rewrite range_down_cons by lia. cbn [find_bottom_loop negb].
    case_pixel E (getpixel im sample_x s = border_color cfg).
    + exists s. split; [lia|]. split; [lia|]. split; [exact E|]. intros y' Hy'. lia.
    + pose proof (IH (s - 1) ltac:(lia)) as H.
      destruct (find_bottom_loop _ _ _ _ _) as [r|].
      * destruct H as (y & -> & Hy & Hb & Hlast). exists y.
        split; [lia|]. split; [lia|]. split; [exact Hb|]. intros y' Hy'.
        destruct (decide (y' = s)) as [->|]; [exact E|]. apply Hlast. lia.
      * intros y Hy. destruct (decide (y = s)) as [->|]; [exact E|]. apply H. lia.
Qed.

Lemma find_bottom_unarmed_spec (n : nat) (s : Z) :
  Z.to_nat (s + 1) = n ->
  match find_bottom_loop cfg im sample_x (range_down s (-1)) false with
  | Some r => exists y1 y2, r = y2 - 1 /\ 0 <= y2 < y1 /\ y1 <= s /\
              getpixel im sample_x y1 = border_color cfg /\
              getpixel im sample_x y2 = border_color cfg /\
              (forall y', y1 < y' <= s -> getpixel im sample_x y' <> border_color cfg) /\
              (forall y', y2 < y' < y1 -> getpixel im sample_x y' <> border_color cfg)
  | None => forall y1 y2, 0 <= y2 < y1 -> y1 <= s ->
              getpixel im sample_x y1 = border_color cfg ->
              getpixel im sample_x y2 = border_color cfg -> False
  end.
Proof.
  revert s. induction n as [|n IH]; intros s Hn.
  - rewrite range_down_nil by lia. simpl. intros y1 y2 Hy Hy1. lia.
  - rewrite range_down_cons by lia. cbn [find_bottom_loop negb].
    case_pixel E (getpixel im sample_x s = border_color cfg).
    + pose proof (find_bottom_armed_spec (Z.to_nat (s - 1 + 1)) (s - 1) eq_refl) as H.
      destruct (find_bottom_loop _ _ _ _ _) as [r|].
      * destruct H as (y & -> & Hy & Hb & Hlast). exists s, y.
        split; [lia|]. split; [lia|]. split; [lia|]. split; [exact E|].
        split; [exact Hb|]. split; [intros y' Hy'; lia|].
        intros y' Hy'. apply Hlast. lia.
      * intros y1 y2 Hy Hy1 Hb1 Hb2. apply (H y2); [lia|exact Hb2].
    + pose proof (IH (s - 1) ltac:(lia)) as H.
      destruct (find_bottom_loop _ _ _ _ _) as [r|].
      * destruct H as (y1 & y2 & -> & Hy & Hy1 & Hb1 & Hb2 & Hlast & Hmid).
        exists y1, y2. split; [lia|]. split; [lia|]. split; [lia|].
        split; [exact Hb1|]. split; [exact Hb2|]. split; [|exact Hmid].
        intros y' Hy'. destruct (decide (y' = s)) as [->|]; [exact E|]. apply Hlast. lia.
      * intros y1 y2 Hy Hy1 Hb1 Hb2. destruct (decide (y1 = s)) as [->|].
        -- exact (E Hb1).
        -- apply (H y1 y2); [lia|lia|exact Hb1|exact Hb2].
Qed.

End TopBottom.

(** Extra: [_find_top_border] returns one past the first border-coloured
    row of the sample column, and [None] when the column has none. *)
Theorem find_top_border_spec (cfg : K2pConfig) (im : image) (sample_x : Z) :
  match find_top_border cfg im sample_x with
  | Some r => exists y, r = y + 1 /\ 0 <= y < im_height im /\
              getpixel im sample_x y = border_color cfg /\
              forall y', 0 <= y' < y -> getpixel im sample_x y' <> border_color cfg
  | None => forall y, 0 <= y < im_height im -> getpixel im sample_x y <> border_color cfg
  end.
Proof.
  exact (find_top_loop_spec cfg im sample_x (Z.to_nat (im_height im - 0)) 0 eq_refl).
Qed.

(** Extra: [_find_bottom_border] returns one above the second
    border-coloured row met scanning the sample column upwards from the
    last row, and [None] when the column has fewer than two border
    pixels. *)
Theorem find_bottom_border_spec (cfg : K2pConfig) (im : image) (sample_x : Z) :
  match find_bottom_border cfg im sample_x with
  | Some r => exists y1 y2, r = y2 - 1 /\ 0 <= y2 < y1 /\ y1 < im_height im /\
              getpixel im sample_x y1 = border_color cfg /\
              getpixel im sample_x y2 = border_color cfg /\
              (forall y', y1 < y' < im_height im -> getpixel im sample_x y' <> border_color cfg) /\
              (forall y', y2 < y' < y1 -> getpixel im sample_x y' <> border_color cfg)
  | None => forall y1 y2, 0 <= y2 < y1 -> y1 < im_height im ->
              getpixel im sample_x y1 = border_color cfg ->
              getpixel im sample_x y2 = border_color cfg -> False
  end.
Proof.
  unfold find_bottom_border.
  pose proof (find_bottom_unarmed_spec cfg im sample_x (Z.to_nat (im_height im - 1 + 1))
                (im_height im - 1) eq_refl) as H.
  destruct (find_bottom_loop _ _ _ _ _) as [r|].
  - destruct H as (y1 & y2 & -> & Hy & Hy1 & Hb1 & Hb2 & Hlast & Hmid).
    exists y1, y2. split; [done|]. split; [lia|]. split; [lia|].
    split; [exact Hb1|]. split; [exact Hb2|]. split; [|exact Hmid].
    intros y' Hy'. apply Hlast. lia.
  - intros y1 y2 Hy Hy1. apply H; lia.
Qed.

Lemma acc_min_in lo hi acc t : opt_in lo hi acc -> opt_in lo hi t -> opt_in lo hi (acc_min acc t).
Proof. destruct acc, t; simpl; lia. Qed.

Lemma acc_max_in lo hi acc t : opt_in lo hi acc -> opt_in lo hi t -> opt_in lo hi (acc_max acc t).
Proof. destruct acc, t; simpl; lia. Qed.

Lemma find_left_border_in cfg im y : opt_in 1 (im_width im - 1) (find_left_border cfg im y).
Proof.
  pose proof (find_left_border_spec cfg im y) as H.
  destruct (find_left_border cfg im y); simpl; [|done].
  destruct H as (x0 & Hx & Hw & _). lia.
Qed.

Lemma find_right_border_in cfg im y : opt_in 0 (im_width im - 21) (find_right_border cfg im y).
Proof.
  pose proof (find_right_border_correct cfg im y) as H. cbv zeta in H.
  destruct (find_right_border cfg im y); simpl; [|done]. lia.
Qed.

Lemma find_top_border_in cfg im x : opt_in 1 (im_height im) (find_top_border cfg im x).
Proof.
  pose proof (find_top_border_spec cfg im x) as H.
  destruct (find_top_border cfg im x); simpl; [|done].
  destruct H as (y & -> & Hy & _). lia.
Qed.

Lemma find_bottom_border_in cfg im x : opt_in (-1) (im_height im - 3) (find_bottom_border cfg im x).
Proof.
  pose proof (find_bottom_border_spec cfg im x) as H.
  destruct (find_bottom_border cfg im x); simpl; [|done].
  destruct H as (y1 & y2 & -> & Hy & Hy1 & _). lia.
Qed.

(** Extra: every bound BorderScanner reports lies in a fixed range of the
    image: left in [1, width-1], right in [0, width-21], top in
    [1, height], and bottom in [-1, height-3] (bottom -1 lies above the
    image). *)
Theorem border_scan_ranges (cfg : K2pConfig) (im : image) :
  let '(l, t, r, b) := border_scan cfg im in
  opt_in 1 (im_width im - 1) l /\ opt_in 1 (im_height im) t /\
  opt_in 0 (im_width im - 21) r /\ opt_in (-1) (im_height im - 3) b.
Proof.
  unfold border_scan, detect_crop_border_x, detect_crop_border_y. cbn [fold_left].
  split; [|split; [|split]];
    repeat first [ apply acc_min_in | apply acc_max_in | exact I
                 | apply find_left_border_in | apply find_right_border_in
                 | apply find_top_border_in | apply find_bottom_border_in ].
Qed.

(* ------------------------------------------------------------------ *)
(** ** Page order does not matter to [_calc_image_size] *)

Lemma add_complete_comm (acc : bounds4) (c1 c2 : Z * Z * Z * Z) :
  add_complete (add_complete acc c1) c2 = add_complete (add_complete acc c2) c1.
Proof.
  destruct acc as [[[[l|] [r|]] [t|]] [b|]];
  destruct c1 as [[[l1 t1] r1] b1], c2 as [[[l2 t2] r2] b2]; simpl;
  repeat (first [lia | f_equal]).
Qed.

Lemma fold_add_complete_perm (cs cs' : list (Z * Z * Z * Z)) (acc : bounds4) :
  Permutation cs cs' -> fold_left add_complete cs acc = fold_left add_complete cs' acc.
Proof.
  intros Hp. revert acc. induction Hp as [|c cs cs' Hp IH|c1 c2 cs|cs cs' cs'' H1 IH1 H2 IH2];
    intros acc; simpl.
  - done.
  - apply IH.
  - rewrite add_complete_comm. done.
  - rewrite IH1. apply IH2.
Qed.

Lemma omap_perm {A B} (f : A -> option B) (l l' : list A) :
  Permutation l l' -> Permutation (omap f l) (omap f l').
Proof.
  induction 1 as [|x l l' Hp IH|x y l|l l' l'' H1 IH1 H2 IH2]; simpl.
  - constructor.
  - destruct (f x); [constructor|]; exact IH.
  - destruct (f x), (f y); try constructor; try reflexivity.
  - etransitivity; eassumption.
Qed.

(** Extra: [_calc_image_size] gives the same result (the same
    rectangle, or the same error) for any reordering of the pages. *)
Theorem calc_image_size_perm (cfg : K2pConfig) (pages pages' : list image) :
  Permutation pages pages' -> calc_image_size cfg pages = calc_image_size cfg pages'.
Proof.
  intros Hp. unfold calc_image_size. rewrite !fold_calc_step.
  rewrite (fold_add_complete_perm _ _ _ (omap_perm (complete_bounds cfg) _ _ Hp)). done.
Qed.

Lemma calc_image_size_perm_witness :
  Permutation [example_page black; blank_page] [blank_page; example_page black] /\
  calc_image_size default_config [example_page black; blank_page] =
  calc_image_size default_config [blank_page; example_page black].
Proof.
  split; [apply perm_swap|].
  apply calc_image_size_perm. apply perm_swap.
Defined.

(* ------------------------------------------------------------------ *)
(** ** Which screenshots the capture loop saves *)

Lemma capture_run_frames (frames : nat -> frame) (k : nat) :
  let s := state_of (run frames k (Capturing capture_init)) in
  saved s = first_frames frames (page_number s) /\
  prev_img s = last_frame frames (page_number s) /\
  consecutive_distinct frames (page_number s) /\
  match run frames k (Capturing capture_init) with
  | Capturing _ => True
  | Done s => (page_number s < PAGE_NUMBER_MAX)%nat ->
              fr_bytes (frames (page_number s)) = fr_bytes (frames (page_number s - 1)%nat)
  end.
Proof.
  cbv zeta. induction k as [|k IH].
  - simpl. repeat split; try done. intros i Hi. lia.
  - pose proof (capture_run_inv frames k) as Hinv. cbn [run].
    destruct (run frames k (Capturing capture_init)) as [s|s]; cbn [state_of advance] in *;
      [|exact IH].
    destruct IH as (Hsv & Hprev & Hdist & _).
    destruct Hinv as (Hpn & Hfi & Hlt & _).
    unfold capture_step. rewrite Hfi, Hprev, Hpn.
    rewrite Hpn in Hsv, Hprev, Hdist.
    destruct k as [|j].
    + (* first iteration: nothing to compare with *)
      cbn [last_frame is_last_page truthy].
      assert (E1 : (PAGE_NUMBER_MAX <=? 1)%nat = false) by reflexivity.
      rewrite E1. cbn [state_of page_number saved prev_img].
      rewrite Hsv. repeat split; try done. intros i Hi. lia.
    + cbn [last_frame is_last_page].
      destruct (decide (fr_bytes (frames j) = fr_bytes (frames (S j)))) as [E|E].
      * rewrite (bool_decide_true _ E). cbn [truthy state_of].
        rewrite Hpn. repeat split; try done.
        intros _. simpl. rewrite Nat.sub_0_r. symmetry. exact E.
      * rewrite (bool_decide_false _ E). cbn [truthy].
        assert (Hsv' : saved s ++ [(S (S j), frames (S j))] = first_frames frames (S (S j))).
        { rewrite Hsv. unfold first_frames. rewrite (seq_S (S j)), map_app. done. }
        assert (Hd' : consecutive_distinct frames (S (S j))).
        { intros i Hi. destruct (decide (i = S j)) as [->|Hne].
          - simpl. rewrite Nat.sub_0_r. intros H. apply E. symmetry. exact H.
          - apply Hdist. lia. }
        destruct (PAGE_NUMBER_MAX <=? S (S j))%nat eqn:Em; cbn [state_of page_number saved prev_img].
        -- repeat split; try done. intros Hl. apply Nat.leb_le in Em. lia.
        -- repeat split; done.
Qed.

(** Extra: at every point of the capture loop the saved pages are
    exactly the first [page_number] screenshots, in order, screenshot
    [i] saved as page [i+1], and [prev_img] is the last of them. *)
Theorem capture_saves_first_frames (frames : nat -> frame) (k : nat) :
  let s := state_of (run frames k (Capturing capture_init)) in
  saved s = first_frames frames (page_number s) /\
  prev_img s = last_frame frames (page_number s).
Proof.
  pose proof (capture_run_frames frames k) as H. cbv zeta in *.
  destruct H as (H1 & H2 & _). split; assumption.
Qed.

(** Extra: the capture loop stops at the first screenshot identical (in
    bytes) to the one before it, or after 500 pages: when it stops with
    [N] pages, screenshots [0..N-1] have no two consecutive identical
    ones, and if [N < 500] screenshot [N] repeats screenshot [N-1]. *)
Theorem capture_stops_at_first_duplicate (frames : nat -> frame) :
  exists s, run frames PAGE_NUMBER_MAX (Capturing capture_init) = Done s /\
    consecutive_distinct frames (page_number s) /\
    ((page_number s < PAGE_NUMBER_MAX)%nat ->
     fr_bytes (frames (page_number s)) = fr_bytes (frames (page_number s - 1)%nat)).
Proof.
  pose proof (capture_run_inv frames PAGE_NUMBER_MAX) as Hinv.
  pose proof (capture_run_frames frames PAGE_NUMBER_MAX) as H. cbv zeta in H.
  destruct (run frames PAGE_NUMBER_MAX (Capturing capture_init)) as [s|s];
    simpl in Hinv; [lia|].
  destruct H as (_ & _ & Hd & Hdup). exists s. split; [done|]. split; assumption.
Qed.

(* ------------------------------------------------------------------ *)
(** ** Page file names *)

Lemma digit_roundtrip (n : nat) :
  (n < 10)%nat -> (nat_of_ascii (ascii_of_nat (48 + n)) - 48)%nat = n.
Proof. intros H. do 10 (destruct n as [|n]; [reflexivity|]). lia. Qed.

Lemma dec_digits_value (fuel n : nat) (acc : string) :
  (n < fuel)%nat -> parse_dec (dec_digits fuel n acc) 0 = parse_dec acc n.
Proof.
  revert n acc. induction fuel as [|f IH]; intros n acc Hn; [lia|].
  cbn [dec_digits].
  assert (Hm : (n mod 10 < 10)%nat) by (apply Nat.mod_upper_bound; lia).
  destruct (n <? 10)%nat eqn:E.
  - apply Nat.ltb_lt in E. cbn [parse_dec]. rewrite (digit_roundtrip _ Hm).
    rewrite (Nat.mod_small n 10 E). done.
  - apply Nat.ltb_ge in E. rewrite IH.
    + cbn [parse_dec]. rewrite (digit_roundtrip _ Hm).
      f_equal. pose proof (Nat.div_mod n 10). lia.
    + pose proof (Nat.div_lt n 10). lia.
Qed.

Lemma parse_dec_zeros (k : nat) (s : string) :
  parse_dec (string_of_list_ascii (List.repeat "0"%char k) ++ s) 0 = parse_dec s 0.
Proof. induction k as [|k IH]; [done|]. exact IH. Qed.

Lemma length_zeros (k : nat) (s : string) :
  String.length (string_of_list_ascii (List.repeat "0"%char k) ++ s) = (k + String.length s)%nat.
Proof. induction k as [|k IH]; [done|]. simpl. rewrite IH. done. Qed.

Lemma fmt04d_value (n : nat) : parse_dec (fmt04d n) 0 = n.
Proof. unfold fmt04d. rewrite parse_dec_zeros, dec_digits_value by lia. done. Qed.

(** Extra: [f'{n:04d}'] reads back as [n] and has at least four
    characters (zero-padded). *)
Theorem fmt04d_roundtrip (n : nat) :
  parse_dec (fmt04d n) 0 = n /\ (4 <= String.length (fmt04d n))%nat.
Proof.
  split; [apply fmt04d_value|]. unfold fmt04d. rewrite length_zeros. lia.
Qed.

Lemma string_app_inv_l (s t1 t2 : string) :
  (s ++ t1)%string = (s ++ t2)%string -> t1 = t2.
Proof. induction s as [|c s IH]; simpl; [done|]. intros H. injection H. exact IH. Qed.

Lemma list_ascii_of_string_append (s1 s2 : string) :
  list_ascii_of_string (s1 ++ s2) = list_ascii_of_string s1 ++ list_ascii_of_string s2.
Proof. induction s1 as [|c s IH]; simpl; [done|]. rewrite IH. done. Qed.

Lemma string_app_inv_r (s t1 t2 : string) :
  (t1 ++ s)%string = (t2 ++ s)%string -> t1 = t2.
Proof.
  intros H. apply (f_equal list_ascii_of_string) in H.
  rewrite !list_ascii_of_string_append in H. apply app_inv_tail in H.
  rewrite <- (string_of_list_ascii_of_string t1), <- (string_of_list_ascii_of_string t2).
  rewrite H. done.
Qed.

(** Extra: two pages with different numbers are saved to different
    files, so [_save_image] never overwrites an earlier page. *)
Theorem page_path_inj (m n : nat) : page_path m = page_path n -> m = n.
Proof.
  unfold page_path. intros H.
  apply string_app_inv_l in H. apply string_app_inv_l in H.
  apply string_app_inv_r in H.
  rewrite <- (fmt04d_value m), <- (fmt04d_value n), H. done.
Qed.

Lemma page_path_inj_witness : page_path 12 = page_path 12 /\ 12%nat = 12%nat.
Proof. split; [reflexivity|]. apply page_path_inj. reflexivity. Defined.

(* ------------------------------------------------------------------ *)
(** ** Cropping *)



(* ------------------------------------------------------------------ *)
(** ** Successful end of [main_process] *)



(* ------------------------------------------------------------------ *)
(** ** Comic mode *)




(* ------------------------------------------------------------------ *)
(** ** The Kindle window *)

(** Extra: [_get_kindle_window] raises its [ValueError] exactly when no
    listed window is visible, and otherwise selects the first visible
    one: every window listed before it is hidden. *)
Theorem get_kindle_window_first_visible (ws : list window) :
  match get_kindle_window ws with
  | Ok w => exists pre post, ws = pre ++ w :: post /\ wvisible w = true /\
                             Forall (fun w' => wvisible w' = false) pre
  | Raise e => e = ValueError "Kindle window not found." /\
               Forall (fun w' => wvisible w' = false) ws
  end.
Proof.
  unfold get_kindle_window. induction ws as [|w ws IH].
  - split; [done|constructor].
  - rewrite filter_cons. destruct (wvisible w) eqn:Ev.
    + destruct (decide _) as [_|Hn]; [|congruence]. exists [], ws. split; [done|]. split; [done|constructor].
    + destruct (decide _) as [Hn|_]; [congruence|].
      destruct (filter (fun w => wvisible w = true) ws) as [|w' rest].
      * destruct IH as [_ IH]. split; [done|constructor; done].
      * destruct IH as (pre & post & -> & Hv & Hf).
        exists (w :: pre), post. split; [done|]. split; [done|constructor; done].
Qed.


